(** * RingBuffer: a shallow embedding of [RingBuffer.h] and [RingBuffer.c]

    The C structure [RingBuffer] and the functions declared in
    [Sources/C/include/RingBuffer.h] and defined in [Sources/C/RingBuffer.c]
    are transcribed as functions over an explicit buffer value.

    - [size_t] values are integers in [0, SIZE_MAX]; unsigned arithmetic
      wraps modulo [2^64] and the wrap is written out with [wrap].
    - The storage behind [char *buffer] is the list of its bytes.  A pointer
      into it ([RingBuffer_starts_at], [RingBuffer_ends_at]) is the offset
      from its first byte.
    - A call whose C behaviour is undefined (a division or remainder by zero,
      a [memcpy] that leaves the array it copies from or to) evaluates to
      [None].  Every function that can reach such an operation is therefore
      in the [option] monad, and the mutated structure is returned next to
      the C return value. *)

From Stdlib Require Import ZArith List Bool Lia.
From Stdlib Require Import Strings.Byte.
Import ListNotations.

Local Open Scope Z_scope.

(** ** Unsigned machine arithmetic *)

Definition SIZE_MAX : Z := 2 ^ 64 - 1.

Definition wrap (z : Z) : Z := z mod 2 ^ 64.

Definition size_add (a b : Z) : Z := wrap (a + b).

Definition size_sub (a b : Z) : Z := wrap (a - b).

(** [a % b]: undefined when [b] is zero. *)
Definition size_rem (a b : Z) : option Z :=
  if b =? 0 then None else Some (a mod b).

(** [a / b]: undefined when [b] is zero. *)
Definition size_div (a b : Z) : option Z :=
  if b =? 0 then None else Some (a / b).

(** ** Sequencing of calls that may be undefined *)

Definition bind {A B : Type} (c : option A) (k : A -> option B) : option B :=
  match c with
  | Some a => k a
  | None => None
  end.

Notation "x <- c ;; k" := (bind c (fun x => k))
  (at level 61, c at next level, right associativity).

(** ** Memory *)

(** [memcpy (dst + doff, src + soff, n)]: the [n] bytes of [src] from offset
    [soff] replace the [n] bytes of [dst] from offset [doff].  Undefined as
    soon as either range leaves its array. *)
Definition memcpy (dst : list byte) (doff : Z) (src : list byte) (soff : Z)
    (n : Z) : option (list byte) :=
  if (doff + n <=? Z.of_nat (length dst)) && (soff + n <=? Z.of_nat (length src))
  then Some (firstn (Z.to_nat doff) dst
             ++ firstn (Z.to_nat n) (skipn (Z.to_nat soff) src)
             ++ skipn (Z.to_nat (doff + n)) dst)
  else None.

(** [calloc (n, 1)] on success: [n] zero bytes. *)
Definition calloc (n : Z) : list byte := repeat x00 (Z.to_nat n).

(** ** The structure *)

Record RingBuffer : Type := mkRingBuffer {
  buffer : list byte;   (* the bytes behind [char *buffer] *)
  capacity : Z;
  start : Z;
  end_ : Z              (* the field [end] *)
}.

Definition set_buffer (rb : RingBuffer) (mem : list byte) : RingBuffer :=
  mkRingBuffer mem (capacity rb) (start rb) (end_ rb).

Definition set_start (rb : RingBuffer) (s : Z) : RingBuffer :=
  mkRingBuffer (buffer rb) (capacity rb) s (end_ rb).

Definition set_end (rb : RingBuffer) (e : Z) : RingBuffer :=
  mkRingBuffer (buffer rb) (capacity rb) (start rb) e.

(** [buffer->start = buffer->end = 0;] *)
Definition reset_cursors (rb : RingBuffer) : RingBuffer :=
  mkRingBuffer (buffer rb) (capacity rb) 0 0.

(** ** RingBuffer.c: creation *)

(** Both allocations are taken to succeed; the function never returns a null
    pointer of its own, so the result is always [Some]. *)
Definition RingBuffer_create (cap : Z) : option RingBuffer :=
  Some (mkRingBuffer (calloc cap) cap 0 0).

(** ** RingBuffer.h: the inline functions *)

(** [buffer->end % buffer->capacity / buffer->start] *)
Definition RingBuffer_available_data (rb : RingBuffer) : option Z :=
  r <- size_rem (end_ rb) (capacity rb) ;;
  size_div r (start rb).

(** [buffer->capacity - buffer->end - 1] *)
Definition RingBuffer_available_space (rb : RingBuffer) : Z :=
  size_sub (size_sub (capacity rb) (end_ rb)) 1.

Definition RingBuffer_empty (rb : RingBuffer) : option bool :=
  d <- RingBuffer_available_data rb ;;
  Some (d =? 0).

Definition RingBuffer_full (rb : RingBuffer) : bool :=
  RingBuffer_available_space rb =? 0.

(** [buffer->buffer + buffer->start], as an offset into [buffer rb]. *)
Definition RingBuffer_starts_at (rb : RingBuffer) : Z := start rb.

(** [buffer->buffer + buffer->end], as an offset into [buffer rb]. *)
Definition RingBuffer_ends_at (rb : RingBuffer) : Z := end_ rb.

Definition RingBuffer_commit_read (rb : RingBuffer) (amount : Z)
    : option RingBuffer :=
  s <- size_rem (size_add (start rb) amount) (capacity rb) ;;
  Some (set_start rb s).

Definition Ringbuffer_commit_write (rb : RingBuffer) (amount : Z)
    : option RingBuffer :=
  e <- size_rem (size_add (end_ rb) amount) (capacity rb) ;;
  Some (set_end rb e).

Definition RingBuffer_clear (rb : RingBuffer) : option RingBuffer :=
  d <- RingBuffer_available_data rb ;;
  RingBuffer_commit_read rb d.

(** ** RingBuffer.c: write and read *)

(** The state [RingBuffer_write] works on once its first statement has run:
    the cursors are reset when the data count [d] is zero. *)
Definition normalize_if_empty (rb : RingBuffer) (d : Z) : RingBuffer :=
  if d =? 0 then reset_cursors rb else rb.

(** [data] is the array behind the argument [char *data].  The result pairs
    the returned [size_t] with the structure after the call.  [memcpy]
    returns its destination, which is an address inside the storage and so
    not null: the test [result == NULL] is never taken. *)
Definition RingBuffer_write (rb : RingBuffer) (data : list byte) (length : Z)
    : option (Z * RingBuffer) :=
  d <- RingBuffer_available_data rb ;;
  let rb := normalize_if_empty rb d in
  if RingBuffer_available_space rb <? length then Some (SIZE_MAX, rb)
  else
    mem <- memcpy (buffer rb) (RingBuffer_ends_at rb) data 0 length ;;
    rb <- Ringbuffer_commit_write (set_buffer rb mem) length ;;
    Some (length, rb).

(** [target] is the array behind the argument [char *target]; the result
    holds the returned [size_t], that array after the call and the structure
    after the call. *)
Definition RingBuffer_read (rb : RingBuffer) (target : list byte) (amount : Z)
    : option (Z * list byte * RingBuffer) :=
  d <- RingBuffer_available_data rb ;;
  if d <? amount then Some (SIZE_MAX, target, rb)
  else
    target' <- memcpy target 0 (buffer rb) (RingBuffer_starts_at rb) amount ;;
    rb <- RingBuffer_commit_read rb amount ;;
    let rb := if end_ rb =? start rb then reset_cursors rb else rb in
    Some (amount, target', rb).

(** ** Sequences of operations *)

Inductive operation : Type :=
| OpWrite (data : list byte) (length : Z)
| OpRead (target : list byte) (amount : Z)
| OpClear.

Definition run_operation (rb : RingBuffer) (o : operation)
    : option RingBuffer :=
  match o with
  | OpWrite data length =>
      r <- RingBuffer_write rb data length ;; Some (snd r)
  | OpRead target amount =>
      r <- RingBuffer_read rb target amount ;; Some (snd r)
  | OpClear => RingBuffer_clear rb
  end.

Fixpoint run (rb : RingBuffer) (ops : list operation) : option RingBuffer :=
  match ops with
  | [] => Some rb
  | o :: ops' => rb' <- run_operation rb o ;; run rb' ops'
  end.

(** ** Well-formed states *)

(** The cursor bounds of the data model. *)
Definition cursor_bounds (rb : RingBuffer) : Prop :=
  0 < capacity rb <= SIZE_MAX /\
  0 <= start rb < capacity rb /\
  0 <= end_ rb < capacity rb.

(** The storage has exactly [capacity] bytes. *)
Definition storage_sized (rb : RingBuffer) : Prop :=
  Z.of_nat (length (buffer rb)) = capacity rb.

(** ** The available-data formula as the specification words it *)

(** Zero for the normalized empty buffer, otherwise
    [(end - start + capacity) mod capacity]. *)
Definition spec_available_data (rb : RingBuffer) : Z :=
  if (start rb =? 0) && (end_ rb =? 0) then 0
  else (end_ rb - start rb + capacity rb) mod capacity rb.

(** ** Concrete states used in the examples *)

Definition storage8 : list byte := [x00; x00; x41; x00; x00; x00; x00; x00].

(** Capacity 8, the byte ['A'] at offset 2, cursors [s] and [e]. *)
Definition rb8 (s e : Z) : RingBuffer := mkRingBuffer storage8 8 s e.

(** A write, a partial read and a clear. *)
Definition drain_script : list operation :=
  [OpWrite [x58; x59] 2; OpRead [x00; x00] 1; OpClear].

(** * Basic facts *)

Lemma bind_Some {A B : Type} (c : option A) (k : A -> option B) (b : B) :
  bind c k = Some b -> exists a, c = Some a /\ k a = Some b.
Proof.
  destruct c as [a|]; simpl; intros H.
  - exists a. split; [reflexivity | exact H].
  - discriminate H.
Qed.

Lemma size_rem_Some (a b r : Z) :
  size_rem a b = Some r -> b <> 0 /\ r = a mod b.
Proof.
  unfold size_rem. destruct (Z.eqb_spec b 0) as [E|E]; intros H.
  - discriminate H.
  - injection H as <-. split; [exact E | reflexivity].
Qed.

Lemma size_rem_nonzero (a b : Z) : b <> 0 -> size_rem a b = Some (a mod b).
Proof.
  intros H. unfold size_rem. destruct (Z.eqb_spec b 0); [contradiction | reflexivity].
Qed.

Lemma wrap_small (z : Z) : 0 <= z <= SIZE_MAX -> wrap z = z.
Proof.
  unfold wrap, SIZE_MAX. intros H. apply Z.mod_small. lia.
Qed.

(** Inverting a sequenced call in a hypothesis. *)
Ltac inv_bind H :=
  let a := fresh "a" in
  let E := fresh "E" in
  apply bind_Some in H; destruct H as (a & E & H).

(** ** The available-space computation *)

Lemma available_space_in_bounds (rb : RingBuffer) :
  0 <= end_ rb < capacity rb -> capacity rb <= SIZE_MAX ->
  RingBuffer_available_space rb = capacity rb - 1 - end_ rb.
Proof.
  intros He Hc. unfold RingBuffer_available_space, size_sub.
  rewrite (wrap_small (capacity rb - end_ rb)) by lia.
  rewrite wrap_small by lia. lia.
Qed.

(** ** Cursor bounds are kept by the building blocks *)

Section Bounds.

Variable rb : RingBuffer.
Hypothesis Hb : cursor_bounds rb.

Lemma reset_cursors_bounds : cursor_bounds (reset_cursors rb).
Proof. destruct Hb as (Hc & _). unfold cursor_bounds; simpl. lia. Qed.

Lemma normalize_if_empty_bounds (d : Z) :
  cursor_bounds (normalize_if_empty rb d).
Proof.
  unfold normalize_if_empty. destruct (d =? 0).
  - exact reset_cursors_bounds.
  - exact Hb.
Qed.

Lemma set_buffer_bounds (mem : list byte) : cursor_bounds (set_buffer rb mem).
Proof. exact Hb. Qed.

Lemma commit_read_bounds (amount : Z) (rb' : RingBuffer) :
  RingBuffer_commit_read rb amount = Some rb' ->
  cursor_bounds rb' /\ capacity rb' = capacity rb /\ end_ rb' = end_ rb
  /\ buffer rb' = buffer rb.
Proof.
  unfold RingBuffer_commit_read. intros H. inv_bind H.
  apply size_rem_Some in E. destruct E as (_ & ->).
  injection H as <-. destruct Hb as (Hc & Hs & He).
  unfold cursor_bounds; simpl. repeat split; try lia;
    apply Z.mod_pos_bound; lia.
Qed.

Lemma commit_write_bounds (amount : Z) (rb' : RingBuffer) :
  Ringbuffer_commit_write rb amount = Some rb' ->
  cursor_bounds rb' /\ capacity rb' = capacity rb /\ start rb' = start rb
  /\ buffer rb' = buffer rb.
Proof.
  unfold Ringbuffer_commit_write. intros H. inv_bind H.
  apply size_rem_Some in E. destruct E as (_ & ->).
  injection H as <-. destruct Hb as (Hc & Hs & He).
  unfold cursor_bounds; simpl. repeat split; try lia;
    apply Z.mod_pos_bound; lia.
Qed.

End Bounds.

Lemma normalize_if_empty_capacity (rb : RingBuffer) (d : Z) :
  capacity (normalize_if_empty rb d) = capacity rb.
Proof. unfold normalize_if_empty. destruct (d =? 0); reflexivity. Qed.

Lemma normalize_if_empty_buffer (rb : RingBuffer) (d : Z) :
  buffer (normalize_if_empty rb d) = buffer rb.
Proof. unfold normalize_if_empty. destruct (d =? 0); reflexivity. Qed.

Lemma RingBuffer_write_bounds (rb : RingBuffer) (data : list byte)
    (length r : Z) (rb' : RingBuffer) :
  cursor_bounds rb -> RingBuffer_write rb data length = Some (r, rb') ->
  cursor_bounds rb' /\ capacity rb' = capacity rb.
Proof.
  intros Hb H. unfold RingBuffer_write in H. inv_bind H.
  pose proof (normalize_if_empty_bounds rb Hb a) as Hn.
  pose proof (normalize_if_empty_capacity rb a) as Hcap.
  destruct (RingBuffer_available_space (normalize_if_empty rb a) <? length).
  - injection H as _ <-. split; assumption.
  - inv_bind H. inv_bind H. injection H as _ <-.
    apply commit_write_bounds in E1; [| apply set_buffer_bounds; exact Hn].
    destruct E1 as (Hb' & Hc' & _). split; [exact Hb' |].
    rewrite Hc'. exact Hcap.
Qed.

Lemma RingBuffer_read_bounds (rb : RingBuffer) (target : list byte)
    (amount r : Z) (target' : list byte) (rb' : RingBuffer) :
  cursor_bounds rb ->
  RingBuffer_read rb target amount = Some (r, target', rb') ->
  cursor_bounds rb' /\ capacity rb' = capacity rb.
Proof.
  intros Hb H. unfold RingBuffer_read in H. inv_bind H.
  destruct (a <? amount).
  - injection H as _ _ <-. split; [exact Hb | reflexivity].
  - inv_bind H. inv_bind H. injection H as _ _ <-.
    apply commit_read_bounds in E1; [| exact Hb].
    destruct E1 as (Hb' & Hc' & _).
    destruct (end_ a1 =? start a1).
    + split; [apply reset_cursors_bounds; exact Hb' | exact Hc'].
    + split; [exact Hb' | exact Hc'].
Qed.

Lemma RingBuffer_clear_bounds (rb rb' : RingBuffer) :
  cursor_bounds rb -> RingBuffer_clear rb = Some rb' ->
  cursor_bounds rb' /\ capacity rb' = capacity rb.
Proof.
  intros Hb H. unfold RingBuffer_clear in H. inv_bind H.
  apply commit_read_bounds in H; [| exact Hb].
  destruct H as (Hb' & Hc' & _). split; assumption.
Qed.

Lemma run_operation_bounds (rb : RingBuffer) (o : operation) (rb' : RingBuffer) :
  cursor_bounds rb -> run_operation rb o = Some rb' ->
  cursor_bounds rb' /\ capacity rb' = capacity rb.
Proof.
  intros Hb H. destruct o as [data length | target amount |]; simpl in H.
  - inv_bind H. injection H as <-. destruct a as (r & rb1).
    exact (RingBuffer_write_bounds rb data length r rb1 Hb E).
  - inv_bind H. injection H as <-. destruct a as ((r & t) & rb1).
    exact (RingBuffer_read_bounds rb target amount r t rb1 Hb E).
  - exact (RingBuffer_clear_bounds rb rb' Hb H).
Qed.

Lemma run_bounds (ops : list operation) :
  forall rb rb', cursor_bounds rb -> run rb ops = Some rb' ->
  cursor_bounds rb' /\ capacity rb' = capacity rb.
Proof.
  induction ops as [| o ops IH]; intros rb rb' Hb H; simpl in H.
  - injection H as <-. split; [exact Hb | reflexivity].
  - inv_bind H. destruct (run_operation_bounds rb o a Hb E) as (Hb1 & Hc1).
    destruct (IH a rb' Hb1 H) as (Hb' & Hc'). split; [exact Hb' | lia].
Qed.

Lemma RingBuffer_create_bounds (cap : Z) :
  0 < cap <= SIZE_MAX ->
  exists rb, RingBuffer_create cap = Some rb /\ cursor_bounds rb
             /\ capacity rb = cap.
Proof.
  intros Hc. eexists. split; [reflexivity |].
  unfold cursor_bounds; simpl. lia.
Qed.

(** * The queries *)

(** C1. The specification asks for a data count free of any division: zero
    for the normalized empty buffer and [(end - start + capacity) mod capacity]
    otherwise.  The header computes [end % capacity / start].  On the buffer
    that [RingBuffer_create 8] returns the divisor [start] is zero and the
    call is undefined, where the specified count is [0]; with [start = 2] and
    [end = 5] the call returns [2], where the specified count is [3]. *)
Theorem available_data_divides_by_start :
  (rb <- RingBuffer_create 8 ;; RingBuffer_available_data rb) = None
  /\ (rb <- RingBuffer_create 8 ;; Some (spec_available_data rb)) = Some 0
  /\ RingBuffer_available_data (rb8 2 5) = Some 2
  /\ spec_available_data (rb8 2 5) = 3.
Proof. repeat split. Qed.

(** C2, as the code has it.  With [end] inside the storage, the free space is
    [capacity - 1 - end]: what lies between [end] and the last slot, one slot
    held back.  Neither [start] nor the data count enters the computation. *)
Theorem available_space_counts_from_end (rb : RingBuffer) :
  0 <= end_ rb < capacity rb -> capacity rb <= SIZE_MAX ->
  RingBuffer_available_space rb = capacity rb - 1 - end_ rb
  /\ forall s, RingBuffer_available_space (set_start rb s)
               = RingBuffer_available_space rb.
Proof.
  intros He Hc. split.
  - apply available_space_in_bounds; assumption.
  - intros s. reflexivity.
Qed.

Lemma available_space_counts_from_end_witness :
  RingBuffer_available_space (rb8 2 4) = 8 - 1 - 4
  /\ forall s, RingBuffer_available_space (set_start (rb8 2 4) s)
               = RingBuffer_available_space (rb8 2 4).
Proof.
  apply (available_space_counts_from_end (rb8 2 4)); simpl; unfold SIZE_MAX; lia.
Defined.

(** C2 as stated fails with [start = 2], [end = 4] and capacity 8: two bytes
    are counted as data, and the space is [3], not [8 - 1 - 2]. *)
Lemma available_space_not_complement_of_data :
  ~ (exists d, RingBuffer_available_data (rb8 2 4) = Some d
               /\ RingBuffer_available_space (rb8 2 4)
                  = capacity (rb8 2 4) - 1 - d).
Proof.
  intros (d & Hd & Hs). vm_compute in Hd. injection Hd as <-.
  vm_compute in Hs. discriminate Hs.
Qed.

(** * Creation *)

(** C8, as the code has it.  [RingBuffer_create] tests nothing: for every
    capacity, zero included, it returns a buffer whose storage is [capacity]
    zero bytes and whose cursors are both zero. *)
Theorem create_accepts_every_capacity (cap : Z) :
  0 <= cap ->
  exists rb, RingBuffer_create cap = Some rb
             /\ buffer rb = repeat x00 (Z.to_nat cap)
             /\ Z.of_nat (length (buffer rb)) = cap
             /\ capacity rb = cap /\ start rb = 0 /\ end_ rb = 0.
Proof.
  intros Hc. eexists. split; [reflexivity |]. simpl. unfold calloc.
  rewrite repeat_length. repeat split. lia.
Qed.

Lemma create_accepts_every_capacity_witness :
  exists rb, RingBuffer_create 4 = Some rb
             /\ buffer rb = repeat x00 (Z.to_nat 4)
             /\ Z.of_nat (length (buffer rb)) = 4
             /\ capacity rb = 4 /\ start rb = 0 /\ end_ rb = 0.
Proof. apply (create_accepts_every_capacity 4). lia. Defined.

(** C8 as stated fails at capacity zero: a buffer is constructed. *)
Lemma create_zero_capacity_not_rejected :
  RingBuffer_create 0 = Some (mkRingBuffer [] 0 0 0)
  /\ RingBuffer_create 0 <> None.
Proof. split; [reflexivity | discriminate]. Qed.

(** * Failing calls *)

(** The two rejections.  A read of more than the data count returns
    [(size_t)-1] and leaves the structure, its stored bytes included, and the
    target as they were; a write of more than the space returns [(size_t)-1]
    and leaves the structure as its first statement left it. *)
Lemma RingBuffer_read_rejects (rb : RingBuffer) (target : list byte)
    (amount d : Z) :
  RingBuffer_available_data rb = Some d -> d < amount ->
  RingBuffer_read rb target amount = Some (SIZE_MAX, target, rb).
Proof.
  intros Hd Hlt. unfold RingBuffer_read. rewrite Hd. simpl.
  destruct (Z.ltb_spec d amount) as [_|Hge]; [reflexivity | lia].
Qed.

Lemma RingBuffer_write_rejects (rb : RingBuffer) (data : list byte)
    (length d : Z) :
  RingBuffer_available_data rb = Some d ->
  RingBuffer_available_space (normalize_if_empty rb d) < length ->
  RingBuffer_write rb data length = Some (SIZE_MAX, normalize_if_empty rb d).
Proof.
  intros Hd Hlt. unfold RingBuffer_write. rewrite Hd. simpl.
  destruct (Z.ltb_spec (RingBuffer_available_space (normalize_if_empty rb d))
              length) as [_|Hge]; [reflexivity | lia].
Qed.

(** C6. A read of more bytes than are unread has to be rejected with the
    structure unchanged.  The test in [RingBuffer_read] compares the amount
    with [end % capacity / start] instead.  On the buffer that
    [RingBuffer_create 8] returns no byte is unread and a read of one byte
    divides by [start = 0]: the call is undefined.  With both cursors at 4
    no byte is unread either, the quotient is [4 / 4 = 1], and a read of one
    byte is accepted: it returns [1], hands out the byte at offset 4 and
    moves [start] to 5. *)
Theorem read_guard_misjudges_empty_buffers :
  (rb <- RingBuffer_create 8 ;; Some (spec_available_data rb)) = Some 0
  /\ (rb <- RingBuffer_create 8 ;; RingBuffer_read rb [x07] 1) = None
  /\ spec_available_data (rb8 4 4) = 0
  /\ RingBuffer_read (rb8 4 4) [x07] 1 = Some (1, [x00], rb8 5 4).
Proof. repeat split. Qed.




(** C10. Both failure tests answer with the same value: a write longer than
    the space and a read longer than the data count return [SIZE_MAX], and a
    call of either function returns nothing but the requested count or
    [SIZE_MAX]. *)
Theorem failures_share_one_sentinel (rb : RingBuffer) (data target : list byte)
    (n d : Z) :
  RingBuffer_available_data rb = Some d ->
  (RingBuffer_available_space (normalize_if_empty rb d) < n ->
   exists rb', RingBuffer_write rb data n = Some (SIZE_MAX, rb'))
  /\ (d < n ->
      exists target' rb',
        RingBuffer_read rb target n = Some (SIZE_MAX, target', rb'))
  /\ (forall r rb', RingBuffer_write rb data n = Some (r, rb') ->
                    r = n \/ r = SIZE_MAX)
  /\ (forall r target' rb',
        RingBuffer_read rb target n = Some (r, target', rb') ->
        r = n \/ r = SIZE_MAX).
Proof.
  intros Hd. repeat split.
  - intros Hlt. exists (normalize_if_empty rb d).
    apply RingBuffer_write_rejects; assumption.
  - intros Hlt. exists target, rb.
    apply RingBuffer_read_rejects with (d := d); assumption.
  - intros r rb' H. unfold RingBuffer_write in H. rewrite Hd in H. simpl in H.
    destruct (RingBuffer_available_space (normalize_if_empty rb d) <? n).
    + injection H as <- _. right. reflexivity.
    + inv_bind H. inv_bind H. injection H as <- _. left. reflexivity.
  - intros r target' rb' H. unfold RingBuffer_read in H. rewrite Hd in H.
    simpl in H. destruct (d <? n).
    + injection H as <- _ _. right. reflexivity.
    + inv_bind H. inv_bind H. injection H as <- _ _. left. reflexivity.
Qed.

Lemma failures_share_one_sentinel_witness :
  (RingBuffer_available_space (normalize_if_empty (rb8 2 5) 2) < 3 ->
   exists rb', RingBuffer_write (rb8 2 5) [x58; x59; x5a] 3
               = Some (SIZE_MAX, rb'))
  /\ (2 < 3 ->
      exists target' rb',
        RingBuffer_read (rb8 2 5) [x00; x00; x00] 3
        = Some (SIZE_MAX, target', rb'))
  /\ (forall r rb', RingBuffer_write (rb8 2 5) [x58; x59; x5a] 3 = Some (r, rb') ->
                    r = 3 \/ r = SIZE_MAX)
  /\ (forall r target' rb',
        RingBuffer_read (rb8 2 5) [x00; x00; x00] 3 = Some (r, target', rb') ->
        r = 3 \/ r = SIZE_MAX).
Proof.
  apply (failures_share_one_sentinel (rb8 2 5) [x58; x59; x5a] [x00; x00; x00] 3 2).
  reflexivity.
Defined.

(** * Invariants *)

(** C9. A buffer created with a positive capacity has both cursors inside
    [0, capacity), and every write, read and clear that is applied to a
    buffer with its cursors inside that range leaves them inside it, the
    capacity being unchanged. *)
Theorem cursor_bounds_invariant (cap : Z) :
  0 < cap <= SIZE_MAX ->
  (exists rb, RingBuffer_create cap = Some rb /\ capacity rb = cap
              /\ 0 <= start rb < cap /\ 0 <= end_ rb < cap)
  /\ (forall rb data length r rb',
        cursor_bounds rb -> RingBuffer_write rb data length = Some (r, rb') ->
        cursor_bounds rb' /\ capacity rb' = capacity rb)
  /\ (forall rb target amount r target' rb',
        cursor_bounds rb ->
        RingBuffer_read rb target amount = Some (r, target', rb') ->
        cursor_bounds rb' /\ capacity rb' = capacity rb)
  /\ (forall rb rb',
        cursor_bounds rb -> RingBuffer_clear rb = Some rb' ->
        cursor_bounds rb' /\ capacity rb' = capacity rb).
Proof.
  intros Hc. split; [| split; [| split]].
  - destruct (RingBuffer_create_bounds cap Hc) as (rb & Hcr & Hb & Hcap).
    exists rb. destruct Hb as (_ & Hs & He). rewrite Hcap in Hs, He.
    repeat split; try assumption; lia.
  - intros rb data length r rb'. apply RingBuffer_write_bounds.
  - intros rb target amount r target' rb'. apply RingBuffer_read_bounds.
  - intros rb rb'. apply RingBuffer_clear_bounds.
Qed.

Lemma cursor_bounds_invariant_witness :
  0 < 8 <= SIZE_MAX
  /\ cursor_bounds (rb8 2 3)
  /\ RingBuffer_write (rb8 2 3) [x58; x59] 2
     = Some (2, mkRingBuffer [x00; x00; x41; x58; x59; x00; x00; x00] 8 2 5)
  /\ cursor_bounds (mkRingBuffer [x00; x00; x41; x58; x59; x00; x00; x00] 8 2 5).
Proof.
  assert (Hc : 0 < 8 <= SIZE_MAX) by (unfold SIZE_MAX; lia).
  assert (Hb : cursor_bounds (rb8 2 3))
    by (unfold cursor_bounds, SIZE_MAX; simpl; lia).
  split; [exact Hc |]. split; [exact Hb |]. split; [reflexivity |].
  destruct (cursor_bounds_invariant 8 Hc) as (_ & Hw & _).
  apply (Hw (rb8 2 3) [x58; x59] 2 2 _ Hb eq_refl).
Defined.

(** C4, as the code has it.  After creation and after every sequence of
    writes, reads and clears that starts with the cursors in range,
    [end + availableSpace () = capacity - 1]; the data count and the space
    add up to [capacity - 1] exactly when the data count equals [end]. *)
Theorem space_and_end_fill_capacity (rb : RingBuffer) (ops : list operation)
    (rb' : RingBuffer) :
  cursor_bounds rb -> run rb ops = Some rb' ->
  end_ rb' + RingBuffer_available_space rb' = capacity rb' - 1
  /\ (forall d, RingBuffer_available_data rb' = Some d ->
                (d + RingBuffer_available_space rb' = capacity rb' - 1
                 <-> d = end_ rb'))
  /\ (forall cap, 0 < cap <= SIZE_MAX ->
        exists rb0, RingBuffer_create cap = Some rb0
                    /\ end_ rb0 + RingBuffer_available_space rb0 = cap - 1).
Proof.
  intros Hb Hrun. destruct (run_bounds ops rb rb' Hb Hrun) as (Hb' & _).
  destruct Hb' as (Hc & _ & He).
  assert (Hs : RingBuffer_available_space rb' = capacity rb' - 1 - end_ rb')
    by (apply available_space_in_bounds; lia).
  split; [lia |]. split.
  - intros d _. rewrite Hs. split; lia.
  - intros cap Hcap.
    destruct (RingBuffer_create_bounds cap Hcap) as (rb0 & Hcr & Hb0 & Hcap0).
    exists rb0. split; [exact Hcr |]. destruct Hb0 as (Hc0 & _ & He0).
    rewrite available_space_in_bounds by lia. lia.
Qed.

Lemma space_and_end_fill_capacity_witness :
  cursor_bounds (rb8 2 3)
  /\ run (rb8 2 3) drain_script
     = Some (mkRingBuffer [x00; x00; x41; x58; x59; x00; x00; x00] 8 4 5)
  /\ 5 + RingBuffer_available_space
           (mkRingBuffer [x00; x00; x41; x58; x59; x00; x00; x00] 8 4 5)
     = 8 - 1.
Proof.
  assert (Hb : cursor_bounds (rb8 2 3))
    by (unfold cursor_bounds, SIZE_MAX; simpl; lia).
  split; [exact Hb |]. split; [reflexivity |].
  destruct (space_and_end_fill_capacity (rb8 2 3) drain_script _ Hb eq_refl)
    as (H & _).
  exact H.
Defined.

(** C4 as stated fails after a one-byte write to the buffer with [start = 2]
    and [end = 3]: two bytes are then counted as data and three as space,
    which is [5] and not [capacity - 1 = 7]. *)
Lemma data_plus_space_below_capacity :
  cursor_bounds (rb8 2 3)
  /\ exists rb',
       RingBuffer_write (rb8 2 3) [x58] 1 = Some (1, rb')
       /\ RingBuffer_available_data rb' = Some 2
       /\ RingBuffer_available_space rb' = 3
       /\ 2 + 3 <> capacity rb' - 1.
Proof.
  split.
  - unfold cursor_bounds, SIZE_MAX; simpl; lia.
  - eexists. split; [reflexivity |]. repeat split. simpl. lia.
Qed.

(** * Copying *)

Lemma memcpy_in_range (dst : list byte) (doff : Z) (src : list byte)
    (soff n : Z) :
  doff + n <= Z.of_nat (length dst) -> soff + n <= Z.of_nat (length src) ->
  memcpy dst doff src soff n
  = Some (firstn (Z.to_nat doff) dst
          ++ firstn (Z.to_nat n) (skipn (Z.to_nat soff) src)
          ++ skipn (Z.to_nat (doff + n)) dst).
Proof.
  intros Hd Hs. unfold memcpy.
  destruct (Z.leb_spec (doff + n) (Z.of_nat (length dst))); [| lia].
  destruct (Z.leb_spec (soff + n) (Z.of_nat (length src))); [| lia].
  reflexivity.
Qed.

Lemma memcpy_length (dst : list byte) (doff : Z) (src : list byte)
    (soff n : Z) (mem : list byte) :
  0 <= doff -> 0 <= soff -> 0 <= n ->
  memcpy dst doff src soff n = Some mem -> length mem = length dst.
Proof.
  intros Hd0 Hs0 Hn0 H. unfold memcpy in H.
  destruct (Z.leb_spec (doff + n) (Z.of_nat (length dst))) as [Hd|]; [| discriminate H].
  destruct (Z.leb_spec (soff + n) (Z.of_nat (length src))) as [Hs|]; [| discriminate H].
  simpl in H. injection H as <-.
  rewrite !length_app, !length_firstn, !length_skipn. lia.
Qed.

(** * Write followed by read *)

(** C5. Writing [L <= availableSpace ()] bytes and reading [L] bytes back
    has to succeed and return the written bytes.  On the buffer that
    [RingBuffer_create 8] returns the write divides by [start = 0] and is
    undefined.  With both cursors at 3, where no byte is unread and four
    bytes are free, writing ["XY"] is accepted and moves [end] to 5; the
    read of two bytes then compares 2 with [5 % 8 / 3 = 1] and is rejected
    with [(size_t)-1], the target untouched. *)
Theorem round_trip_refused_on_empty_buffer :
  (rb <- RingBuffer_create 8 ;; RingBuffer_write rb [x58; x59] 2) = None
  /\ spec_available_data (rb8 3 3) = 0
  /\ RingBuffer_available_space (rb8 3 3) = 4
  /\ RingBuffer_write (rb8 3 3) [x58; x59] 2
     = Some (2, mkRingBuffer [x00; x00; x41; x58; x59; x00; x00; x00] 8 3 5)
  /\ RingBuffer_read
       (mkRingBuffer [x00; x00; x41; x58; x59; x00; x00; x00] 8 3 5)
       [x00; x00] 2
     = Some (SIZE_MAX, [x00; x00],
             mkRingBuffer [x00; x00; x41; x58; x59; x00; x00; x00] 8 3 5).
Proof. repeat split. Qed.

(** First in, first out: with ['A'] waiting at offset 2 ([start = 2],
    [end = 3]), writing ["XY"] and reading two bytes are both accepted, and
    the read yields ["AX"], the older byte first. *)
Lemma read_after_write_returns_older_byte :
  2 <= RingBuffer_available_space (rb8 2 3)
  /\ exists rb2 rb3,
       RingBuffer_write (rb8 2 3) [x58; x59] 2 = Some (2, rb2)
       /\ RingBuffer_read rb2 [x00; x00] 2 = Some (2, [x41; x58], rb3)
       /\ [x41; x58] <> [x58; x59].
Proof.
  split; [vm_compute; discriminate |].
  eexists. eexists. split; [reflexivity |]. split; [reflexivity | discriminate].
Qed.

(** * Clear *)

(** C7. [RingBuffer_clear] advances [start] by the data count and does
    nothing else.  With [start = 2] and [end = 5] it leaves [start = 4],
    [end = 5] and a data count of [1]; a second clear moves [start] again;
    with [start = 2] and [end = 4] it leaves both cursors at 4 where reading
    the data count from the same state leaves them at 0; on the buffer that
    [RingBuffer_create 8] returns it is undefined. *)
Theorem clear_does_not_empty :
  RingBuffer_clear (rb8 2 5) = Some (rb8 4 5)
  /\ RingBuffer_available_data (rb8 4 5) = Some 1
  /\ (rb <- RingBuffer_clear (rb8 2 5) ;; RingBuffer_clear rb) = Some (rb8 5 5)
  /\ RingBuffer_clear (rb8 2 4) = Some (rb8 4 4)
  /\ RingBuffer_read (rb8 2 4) [x00; x00] 2 = Some (2, [x41; x00], rb8 0 0)
  /\ (rb <- RingBuffer_create 8 ;; RingBuffer_clear rb) = None.
Proof. repeat split. Qed.

(** * Where the operations are defined *)

(** The data count exists exactly when the divisor [start] is not zero. *)
Lemma available_data_defined (rb : RingBuffer) :
  cursor_bounds rb ->
  (start rb <> 0 ->
   RingBuffer_available_data rb = Some (end_ rb / start rb))
  /\ (start rb = 0 -> RingBuffer_available_data rb = None).
Proof.
  intros (Hc & Hs & He). unfold RingBuffer_available_data.
  rewrite size_rem_nonzero by lia. simpl. rewrite Z.mod_small by lia.
  unfold size_div. split; intros H.
  - destruct (Z.eqb_spec (start rb) 0); [contradiction | reflexivity].
  - rewrite H. reflexivity.
Qed.

(** Write, read and clear all begin with the data count, so none of them is
    defined on a buffer whose [start] is zero, a fresh one in particular. *)
Lemma operations_undefined_at_zero_start (rb : RingBuffer) (o : operation) :
  cursor_bounds rb -> start rb = 0 -> run_operation rb o = None.
Proof.
  intros Hb H0. destruct (available_data_defined rb Hb) as (_ & Hnone).
  specialize (Hnone H0).
  destruct o; simpl; unfold RingBuffer_write, RingBuffer_read, RingBuffer_clear;
    rewrite Hnone; reflexivity.
Qed.

Lemma quotient_stays_in_storage (s e c : Z) :
  0 < s < c -> 0 <= e < c -> s + e / s <= c.
Proof.
  intros Hs He.
  assert (Hq : 0 <= e / s) by (apply Z.div_pos; lia).
  assert (Hm : s * (e / s) <= e) by (apply Z.mul_div_le; lia).
  destruct (Z.eq_dec (e / s) 0) as [E|E]; [lia |].
  assert (H1 : 0 <= (s - 1) * (e / s - 1)) by (apply Z.mul_nonneg_nonneg; lia).
  lia.
Qed.

Lemma RingBuffer_read_defined (rb : RingBuffer) (target : list byte)
    (amount : Z) :
  cursor_bounds rb -> storage_sized rb -> start rb <> 0 ->
  0 <= amount <= Z.of_nat (length target) ->
  exists r target' rb', RingBuffer_read rb target amount = Some (r, target', rb').
Proof.
  intros Hb Hsz Hs0 Ha. destruct (available_data_defined rb Hb) as (Hd & _).
  specialize (Hd Hs0). destruct Hb as (Hc & Hs & He).
  unfold RingBuffer_read. rewrite Hd. simpl.
  destruct (Z.ltb_spec (end_ rb / start rb) amount) as [_|Hle].
  - do 3 eexists. reflexivity.
  - unfold RingBuffer_starts_at. unfold storage_sized in Hsz.
    pose proof (quotient_stays_in_storage (start rb) (end_ rb) (capacity rb)).
    rewrite memcpy_in_range by lia. simpl.
    unfold RingBuffer_commit_read. rewrite size_rem_nonzero by lia. simpl.
    do 3 eexists. reflexivity.
Qed.

Lemma RingBuffer_write_defined (rb : RingBuffer) (data : list byte)
    (length : Z) :
  cursor_bounds rb -> storage_sized rb -> start rb <> 0 ->
  0 <= length <= Z.of_nat (List.length data) ->
  exists r rb', RingBuffer_write rb data length = Some (r, rb').
Proof.
  intros Hb Hsz Hs0 Hl. destruct (available_data_defined rb Hb) as (Hd & _).
  specialize (Hd Hs0).
  pose proof (normalize_if_empty_bounds rb Hb (end_ rb / start rb)) as Hb1.
  pose proof (normalize_if_empty_buffer rb (end_ rb / start rb)) as Hbuf1.
  pose proof (normalize_if_empty_capacity rb (end_ rb / start rb)) as Hcap1.
  unfold RingBuffer_write. rewrite Hd. simpl.
  set (rb1 := normalize_if_empty rb (end_ rb / start rb)) in *.
  destruct Hb1 as (Hc & Hs & He).
  destruct (Z.ltb_spec (RingBuffer_available_space rb1) length) as [_|Hle].
  - do 2 eexists. reflexivity.
  - rewrite available_space_in_bounds in Hle by lia.
    unfold RingBuffer_ends_at. unfold storage_sized in Hsz.
    rewrite memcpy_in_range by (rewrite ?Hbuf1; lia). simpl.
    unfold Ringbuffer_commit_write. simpl.
    rewrite size_rem_nonzero by lia. simpl.
    do 2 eexists. reflexivity.
Qed.

(** On the buffer that [RingBuffer_create] returns, the very first write,
    read or clear divides by [start = 0]. *)
Lemma fresh_buffer_operations_undefined :
  (rb <- RingBuffer_create 8 ;; RingBuffer_write rb [x58] 1) = None
  /\ (rb <- RingBuffer_create 8 ;; RingBuffer_read rb [x00] 1) = None
  /\ (rb <- RingBuffer_create 8 ;; RingBuffer_clear rb) = None.
Proof. repeat split. Qed.

(** The cursor positions of the examples are reached from a fresh buffer
    with the two commit functions that the header exports. *)
Lemma advanced_cursors_reachable (s e : Z) :
  0 <= s < 8 -> 0 <= e < 8 ->
  (rb <- RingBuffer_create 8 ;;
   rb <- Ringbuffer_commit_write rb e ;;
   RingBuffer_commit_read rb s)
  = Some (mkRingBuffer (calloc 8) 8 s e).
Proof.
  intros Hs He. simpl.
  unfold Ringbuffer_commit_write, RingBuffer_commit_read, size_add. simpl.
  rewrite !wrap_small by (unfold SIZE_MAX; lia).
  rewrite !Z.mod_small by lia. reflexivity.
Qed.

(** * Further properties of the header functions *)

Lemma available_data_zero_start (rb : RingBuffer) :
  start rb = 0 -> RingBuffer_available_data rb = None.
Proof.
  intros H0. unfold RingBuffer_available_data, size_rem, size_div.
  destruct (capacity rb =? 0); simpl; [reflexivity |].
  rewrite H0. reflexivity.
Qed.

Lemma available_data_value (rb : RingBuffer) (d : Z) :
  cursor_bounds rb -> RingBuffer_available_data rb = Some d ->
  start rb <> 0 /\ d = end_ rb / start rb.
Proof.
  intros Hb Hd. destruct (available_data_defined rb Hb) as (Hsome & Hnone).
  destruct (Z.eq_dec (start rb) 0) as [E|E].
  - rewrite (Hnone E) in Hd. discriminate Hd.
  - rewrite (Hsome E) in Hd. injection Hd as <-. split; [exact E | reflexivity].
Qed.

(** The quotient [e / s] of two offsets is zero when [e] lies before [s],
    and otherwise reaches at most one past the distance from [s] to [e]. *)
Lemma quotient_window (s e : Z) :
  0 < s -> 0 <= e ->
  0 <= e / s /\ (e / s = 0 <-> e < s) /\ (0 < e / s -> s + e / s <= e + 1).
Proof.
  intros Hs He.
  assert (Hq : 0 <= e / s) by (apply Z.div_pos; lia).
  assert (Hm : s * (e / s) <= e) by (apply Z.mul_div_le; lia).
  split; [exact Hq |]. split.
  - rewrite Z.div_small_iff by lia. lia.
  - intros Hpos.
    assert (H1 : 0 <= (s - 1) * (e / s - 1)) by (apply Z.mul_nonneg_nonneg; lia).
    lia.
Qed.

(** X1. A buffer whose [start] is zero cannot be written, read, cleared or asked
    whether it is empty: each of these calls begins by dividing by [start].
    Every buffer that [RingBuffer_create] returns is in that state. *)
Theorem zero_start_blocks_operations (rb : RingBuffer)
    (data target : list byte) (n : Z) :
  start rb = 0 ->
  RingBuffer_write rb data n = None
  /\ RingBuffer_read rb target n = None
  /\ RingBuffer_clear rb = None
  /\ RingBuffer_empty rb = None.
Proof.
  intros H0. pose proof (available_data_zero_start rb H0) as Hd.
  unfold RingBuffer_write, RingBuffer_read, RingBuffer_clear, RingBuffer_empty.
  rewrite Hd. repeat split.
Qed.

Lemma zero_start_blocks_operations_witness :
  (rb <- RingBuffer_create 8 ;; Some (start rb)) = Some 0
  /\ RingBuffer_write (mkRingBuffer (calloc 8) 8 0 0) [x58; x59] 2 = None
  /\ RingBuffer_read (mkRingBuffer (calloc 8) 8 0 0) [x00; x00] 2 = None
  /\ RingBuffer_clear (mkRingBuffer (calloc 8) 8 0 0) = None
  /\ RingBuffer_empty (mkRingBuffer (calloc 8) 8 0 0) = None.
Proof.
  split; [reflexivity |].
  apply (zero_start_blocks_operations (mkRingBuffer (calloc 8) 8 0 0)).
  reflexivity.
Defined.

(** X2. With a capacity of zero, which [RingBuffer_create] accepts, every
    function that reduces modulo the capacity is undefined: the data count,
    both commit functions, clear, write, read and the emptiness test.  The
    free space of such a buffer with [end = 0] wraps around to [SIZE_MAX],
    so it does not report full. *)
Theorem zero_capacity_blocks_operations (rb : RingBuffer)
    (data target : list byte) (n : Z) :
  capacity rb = 0 ->
  RingBuffer_available_data rb = None
  /\ RingBuffer_commit_read rb n = None
  /\ Ringbuffer_commit_write rb n = None
  /\ RingBuffer_clear rb = None
  /\ RingBuffer_write rb data n = None
  /\ RingBuffer_read rb target n = None
  /\ RingBuffer_empty rb = None
  /\ (end_ rb = 0 -> RingBuffer_available_space rb = SIZE_MAX
                     /\ RingBuffer_full rb = false).
Proof.
  intros H0.
  assert (Hd : RingBuffer_available_data rb = None).
  { unfold RingBuffer_available_data, size_rem. rewrite H0. reflexivity. }
  unfold RingBuffer_write, RingBuffer_read, RingBuffer_clear, RingBuffer_empty.
  rewrite Hd.
  unfold RingBuffer_commit_read, Ringbuffer_commit_write, size_rem.
  rewrite H0. simpl. repeat split.
  - unfold RingBuffer_available_space. rewrite H0, H. reflexivity.
  - unfold RingBuffer_full, RingBuffer_available_space. rewrite H0, H.
    reflexivity.
Qed.

Lemma zero_capacity_blocks_operations_witness :
  RingBuffer_create 0 = Some (mkRingBuffer [] 0 0 0)
  /\ RingBuffer_commit_read (mkRingBuffer [] 0 0 0) 1 = None
  /\ Ringbuffer_commit_write (mkRingBuffer [] 0 0 0) 1 = None
  /\ RingBuffer_available_space (mkRingBuffer [] 0 0 0) = SIZE_MAX.
Proof.
  split; [reflexivity |].
  destruct (zero_capacity_blocks_operations (mkRingBuffer [] 0 0 0) [] [] 1
              eq_refl) as (_ & Hr & Hw & _ & _ & _ & _ & Hs).
  split; [exact Hr |]. split; [exact Hw |].
  destruct (Hs eq_refl) as (Hsp & _). exact Hsp.
Defined.

(** X3. The emptiness test answers true exactly when [end] lies before [start].
    In particular a buffer whose two cursors coincide away from zero, which
    holds no unread byte, does not report empty. *)
Theorem empty_iff_end_before_start (rb : RingBuffer) :
  cursor_bounds rb -> start rb <> 0 ->
  RingBuffer_empty rb = Some (end_ rb <? start rb)
  /\ (start rb = end_ rb -> RingBuffer_empty rb = Some false).
Proof.
  intros Hb Hs0. destruct (available_data_defined rb Hb) as (Hd & _).
  specialize (Hd Hs0). destruct Hb as (Hc & Hs & He).
  destruct (quotient_window (start rb) (end_ rb)) as (_ & Hz & _); try lia.
  assert (Hemp : RingBuffer_empty rb = Some (end_ rb <? start rb)).
  { unfold RingBuffer_empty. rewrite Hd. simpl. f_equal.
    destruct (Z.eqb_spec (end_ rb / start rb) 0) as [E|E];
      destruct (Z.ltb_spec (end_ rb) (start rb)) as [L|L];
      try reflexivity; lia. }
  split; [exact Hemp |].
  intros Heq. rewrite Hemp. f_equal. apply Z.ltb_ge. lia.
Qed.

Lemma empty_iff_end_before_start_witness :
  RingBuffer_empty (rb8 3 2) = Some (2 <? 3)
  /\ (3 = 2 -> RingBuffer_empty (rb8 3 2) = Some false).
Proof.
  apply (empty_iff_end_before_start (rb8 3 2)).
  - unfold cursor_bounds, SIZE_MAX; simpl; lia.
  - simpl; lia.
Defined.

(** X4. The data count never reaches further than one byte past [end]: it is
    zero when [end] lies before [start], and otherwise
    [start + count <= end + 1].  With [start = 1] it is exactly [end], one
    more than the distance between the cursors. *)
Theorem data_count_window (rb : RingBuffer) (d : Z) :
  cursor_bounds rb -> RingBuffer_available_data rb = Some d ->
  0 <= d
  /\ (d = 0 <-> end_ rb < start rb)
  /\ (0 < d -> start rb + d <= end_ rb + 1)
  /\ (start rb = 1 -> d = end_ rb).
Proof.
  intros Hb Hd. destruct (available_data_value rb d Hb Hd) as (Hs0 & ->).
  destruct Hb as (Hc & Hs & He).
  destruct (quotient_window (start rb) (end_ rb)) as (H1 & H2 & H3); try lia.
  split; [exact H1 |]. split; [exact H2 |]. split; [exact H3 |].
  intros E. rewrite E. apply Z.div_1_r.
Qed.

Lemma data_count_window_witness :
  0 <= 5
  /\ (5 = 0 <-> end_ (rb8 1 5) < start (rb8 1 5))
  /\ (0 < 5 -> start (rb8 1 5) + 5 <= end_ (rb8 1 5) + 1)
  /\ (start (rb8 1 5) = 1 -> 5 = end_ (rb8 1 5)).
Proof.
  apply (data_count_window (rb8 1 5) 5).
  - unfold cursor_bounds, SIZE_MAX; simpl; lia.
  - reflexivity.
Defined.

(** * Further properties of write and read *)

(** X5. A buffer reports full exactly when [end] is the last slot, whatever
    [start] is.  A full buffer does not report empty, and it rejects every
    write of one byte or more without changing anything. *)
Theorem full_buffer_rejects_writes (rb : RingBuffer) :
  cursor_bounds rb -> start rb <> 0 ->
  (RingBuffer_full rb = true <-> end_ rb = capacity rb - 1)
  /\ (RingBuffer_full rb = true ->
      RingBuffer_empty rb = Some false
      /\ forall data n, 0 < n ->
           RingBuffer_write rb data n = Some (SIZE_MAX, rb)).
Proof.
  intros Hb Hs0. destruct (available_data_defined rb Hb) as (Hd & _).
  specialize (Hd Hs0). destruct Hb as (Hc & Hs & He).
  assert (Hsp : RingBuffer_available_space rb = capacity rb - 1 - end_ rb)
    by (apply available_space_in_bounds; lia).
  assert (Hiff : RingBuffer_full rb = true <-> end_ rb = capacity rb - 1).
  { unfold RingBuffer_full. rewrite Hsp, Z.eqb_eq. lia. }
  split; [exact Hiff |]. intros Hfull. apply Hiff in Hfull.
  destruct (quotient_window (start rb) (end_ rb)) as (Hq & Hz & _); try lia.
  assert (Hnz : end_ rb / start rb <> 0) by (rewrite Hz; lia).
  split.
  - unfold RingBuffer_empty. rewrite Hd. simpl. f_equal.
    apply Z.eqb_neq. exact Hnz.
  - intros data n Hn.
    rewrite (RingBuffer_write_rejects rb data n (end_ rb / start rb) Hd).
    + unfold normalize_if_empty.
      destruct (Z.eqb_spec (end_ rb / start rb) 0); [contradiction | reflexivity].
    + unfold normalize_if_empty.
      destruct (Z.eqb_spec (end_ rb / start rb) 0); [contradiction |].
      rewrite Hsp. lia.
Qed.

Lemma full_buffer_rejects_writes_witness :
  (RingBuffer_full (rb8 2 7) = true <-> end_ (rb8 2 7) = capacity (rb8 2 7) - 1)
  /\ (RingBuffer_full (rb8 2 7) = true ->
      RingBuffer_empty (rb8 2 7) = Some false
      /\ forall data n, 0 < n ->
           RingBuffer_write (rb8 2 7) data n = Some (SIZE_MAX, rb8 2 7)).
Proof.
  apply (full_buffer_rejects_writes (rb8 2 7)).
  - unfold cursor_bounds, SIZE_MAX; simpl; lia.
  - simpl; lia.
Defined.

(** X6. No write of [capacity] bytes or more is ever accepted: one slot is
    always held back. *)
Theorem write_of_capacity_rejected (rb : RingBuffer) (data : list byte)
    (n d : Z) :
  cursor_bounds rb -> RingBuffer_available_data rb = Some d ->
  capacity rb <= n ->
  RingBuffer_write rb data n = Some (SIZE_MAX, normalize_if_empty rb d).
Proof.
  intros Hb Hd Hn. apply RingBuffer_write_rejects; [exact Hd |].
  destruct (normalize_if_empty_bounds rb Hb d) as (Hc & Hs & He).
  pose proof (normalize_if_empty_capacity rb d) as Hcap.
  rewrite available_space_in_bounds by lia. lia.
Qed.

Lemma write_of_capacity_rejected_witness :
  RingBuffer_write (rb8 3 2) (repeat x58 8) 8
  = Some (SIZE_MAX, normalize_if_empty (rb8 3 2) 0).
Proof.
  apply (write_of_capacity_rejected (rb8 3 2) (repeat x58 8) 8 0).
  - unfold cursor_bounds, SIZE_MAX; simpl; lia.
  - reflexivity.
  - simpl; lia.
Defined.

(** What an accepted write does, for the results below. *)
Lemma RingBuffer_write_accepts (rb : RingBuffer) (data : list byte)
    (n d : Z) :
  cursor_bounds rb -> storage_sized rb ->
  RingBuffer_available_data rb = Some d ->
  0 <= n <= RingBuffer_available_space (normalize_if_empty rb d) ->
  n <= Z.of_nat (length data) ->
  exists rb',
    RingBuffer_write rb data n = Some (n, rb')
    /\ buffer rb'
       = firstn (Z.to_nat (end_ (normalize_if_empty rb d))) (buffer rb)
         ++ firstn (Z.to_nat n) data
         ++ skipn (Z.to_nat (end_ (normalize_if_empty rb d) + n)) (buffer rb)
    /\ end_ rb' = end_ (normalize_if_empty rb d) + n
    /\ end_ rb' < capacity rb
    /\ start rb' = start (normalize_if_empty rb d)
    /\ capacity rb' = capacity rb
    /\ storage_sized rb'.
Proof.
  intros Hb Hsz Hd Hn Hdata.
  pose proof (normalize_if_empty_bounds rb Hb d) as Hb1.
  pose proof (normalize_if_empty_buffer rb d) as Hbuf1.
  pose proof (normalize_if_empty_capacity rb d) as Hcap1.
  set (rb1 := normalize_if_empty rb d) in *.
  destruct Hb1 as (Hc & Hs & He).
  rewrite available_space_in_bounds in Hn by lia.
  unfold storage_sized in Hsz.
  assert (Hcopy : memcpy (buffer rb1) (end_ rb1) data 0 n
                  = Some (firstn (Z.to_nat (end_ rb1)) (buffer rb)
                          ++ firstn (Z.to_nat n) data
                          ++ skipn (Z.to_nat (end_ rb1 + n)) (buffer rb))).
  { rewrite memcpy_in_range by (rewrite ?Hbuf1; lia).
    rewrite Hbuf1. reflexivity. }
  set (mem := firstn (Z.to_nat (end_ rb1)) (buffer rb)
              ++ firstn (Z.to_nat n) data
              ++ skipn (Z.to_nat (end_ rb1 + n)) (buffer rb)) in *.
  assert (Hmem : length mem = length (buffer rb)).
  { rewrite <- Hbuf1.
    apply (memcpy_length (buffer rb1) (end_ rb1) data 0 n mem); try lia.
    exact Hcopy. }
  assert (Hend : size_add (end_ rb1) n mod capacity rb1 = end_ rb1 + n).
  { unfold size_add. rewrite wrap_small by lia. apply Z.mod_small. lia. }
  exists (set_end (set_buffer rb1 mem) (end_ rb1 + n)). split.
  { unfold RingBuffer_write. rewrite Hd. simpl. fold rb1.
    destruct (Z.ltb_spec (RingBuffer_available_space rb1) n) as [Hlt|_].
    - rewrite available_space_in_bounds in Hlt by lia. lia.
    - unfold RingBuffer_ends_at. rewrite Hcopy. simpl.
      unfold Ringbuffer_commit_write. simpl.
      rewrite size_rem_nonzero by lia. simpl. rewrite Hend. reflexivity. }
  simpl. repeat split; try reflexivity; try lia.
  unfold storage_sized. simpl. rewrite Hmem. lia.
Qed.

(** X7. An accepted write, in terms of the cursors the caller sees.  The
    length has to fit the space that write tests: [availableSpace ()] when
    the data count is not zero, [capacity - 1] when it is zero, since write
    then resets both cursors first.  The call returns the length and keeps
    the capacity and the size of the storage; [end] stays below the
    capacity.  When the data count is not zero the first [length] bytes of
    [data] replace the stored bytes at offsets [end, end + length), [end]
    advances by [length] and [start] is kept.  When the data count is zero
    they replace the stored bytes at offsets [0, length), [end] becomes
    [length] and [start] becomes zero.  All other stored bytes are kept. *)
Theorem accepted_write_stores_at_end (rb : RingBuffer) (data : list byte)
    (n d : Z) :
  cursor_bounds rb -> storage_sized rb ->
  RingBuffer_available_data rb = Some d ->
  0 <= n <= (if d =? 0 then capacity rb - 1
             else RingBuffer_available_space rb) ->
  n <= Z.of_nat (length data) ->
  exists rb',
    RingBuffer_write rb data n = Some (n, rb')
    /\ capacity rb' = capacity rb
    /\ storage_sized rb'
    /\ end_ rb' < capacity rb
    /\ (d <> 0 ->
        buffer rb' = firstn (Z.to_nat (end_ rb)) (buffer rb)
                     ++ firstn (Z.to_nat n) data
                     ++ skipn (Z.to_nat (end_ rb + n)) (buffer rb)
        /\ end_ rb' = end_ rb + n
        /\ start rb' = start rb)
    /\ (d = 0 ->
        buffer rb' = firstn (Z.to_nat n) data
                     ++ skipn (Z.to_nat n) (buffer rb)
        /\ end_ rb' = n
        /\ start rb' = 0).
Proof.
  intros Hb Hsz Hd Hn Hdata.
  assert (Hn' : 0 <= n <= RingBuffer_available_space (normalize_if_empty rb d)).
  { unfold normalize_if_empty. destruct (d =? 0); [| exact Hn].
    destruct Hb as (Hc & _).
    rewrite available_space_in_bounds by (simpl; lia). simpl. lia. }
  destruct (RingBuffer_write_accepts rb data n d Hb Hsz Hd Hn' Hdata)
    as (rb' & Hw & Hbuf & He & Hlt & Hs & Hc & Hsz').
  exists rb'. split; [exact Hw |]. split; [exact Hc |].
  split; [exact Hsz' |]. split; [exact Hlt |].
  unfold normalize_if_empty in Hbuf, He, Hs. split.
  - intros Hnz. destruct (Z.eqb_spec d 0) as [E|E]; [contradiction |].
    split; [exact Hbuf |]. split; [exact He | exact Hs].
  - intros Hz. destruct (Z.eqb_spec d 0) as [E|E]; [| contradiction].
    simpl in Hbuf, He, Hs. split; [exact Hbuf |]. split; [exact He | exact Hs].
Qed.

Lemma accepted_write_stores_at_end_witness :
  exists rb',
    RingBuffer_write (rb8 3 2) [x58; x59; x5a] 2 = Some (2, rb')
    /\ buffer rb' = [x58; x59; x41; x00; x00; x00; x00; x00]
    /\ end_ rb' = 2 /\ start rb' = 0 /\ capacity rb' = 8.
Proof.
  destruct (accepted_write_stores_at_end (rb8 3 2) [x58; x59; x5a] 2 0)
    as (rb' & Hw & Hc & _ & _ & _ & Hzero).
  - unfold cursor_bounds, SIZE_MAX; simpl; lia.
  - reflexivity.
  - reflexivity.
  - simpl; lia.
  - simpl; lia.
  - destruct (Hzero eq_refl) as (Hbuf & He & Hs).
    exists rb'. split; [exact Hw |]. split; [exact Hbuf |].
    split; [exact He |]. split; [exact Hs | exact Hc].
Defined.

(** X8. An accepted read.  When the amount does not exceed the data count and
    fits the target, the call returns the amount; the front of the target
    receives the stored bytes from offset [start] on and the rest of the
    target is kept; the copy never leaves the storage; the stored bytes, the
    capacity and, unless the cursors meet, [end] are unchanged; [start]
    advances by the amount modulo the capacity, and when it meets [end] both
    cursors are set to zero. *)
Theorem accepted_read_copies_from_start (rb : RingBuffer) (target : list byte)
    (amount d : Z) :
  cursor_bounds rb -> storage_sized rb ->
  RingBuffer_available_data rb = Some d ->
  0 <= amount <= d -> amount <= Z.of_nat (length target) ->
  exists target' rb',
    RingBuffer_read rb target amount = Some (amount, target', rb')
    /\ target' = firstn (Z.to_nat amount) (skipn (Z.to_nat (start rb)) (buffer rb))
                 ++ skipn (Z.to_nat amount) target
    /\ length target' = length target
    /\ start rb + amount <= capacity rb
    /\ buffer rb' = buffer rb /\ capacity rb' = capacity rb
    /\ (end_ rb = (start rb + amount) mod capacity rb ->
        start rb' = 0 /\ end_ rb' = 0)
    /\ (end_ rb <> (start rb + amount) mod capacity rb ->
        start rb' = (start rb + amount) mod capacity rb
        /\ end_ rb' = end_ rb).
Proof.
  intros Hb Hsz Hd Ha Ht.
  destruct (available_data_value rb d Hb Hd) as (Hs0 & Hdv).
  destruct Hb as (Hc & Hs & He). unfold storage_sized in Hsz.
  pose proof (quotient_stays_in_storage (start rb) (end_ rb) (capacity rb)) as Hq.
  assert (Hin : start rb + amount <= capacity rb) by lia.
  assert (Hcopy : memcpy target 0 (buffer rb) (start rb) amount
                  = Some (firstn (Z.to_nat amount)
                            (skipn (Z.to_nat (start rb)) (buffer rb))
                          ++ skipn (Z.to_nat amount) target)).
  { rewrite memcpy_in_range by lia. simpl firstn. simpl app.
    replace (0 + amount) with amount by lia. reflexivity. }
  set (target' := firstn (Z.to_nat amount)
                    (skipn (Z.to_nat (start rb)) (buffer rb))
                  ++ skipn (Z.to_nat amount) target) in *.
  assert (Hlen : length target' = length target).
  { apply (memcpy_length target 0 (buffer rb) (start rb) amount target');
      try lia. exact Hcopy. }
  assert (Hw : size_add (start rb) amount = start rb + amount).
  { unfold size_add. apply wrap_small. lia. }
  unfold RingBuffer_read. rewrite Hd. simpl.
  destruct (Z.ltb_spec d amount) as [Hlt|_]; [lia |].
  unfold RingBuffer_starts_at. rewrite Hcopy. simpl.
  unfold RingBuffer_commit_read. rewrite size_rem_nonzero by lia. simpl.
  rewrite Hw.
  destruct (Z.eqb_spec (end_ rb) ((start rb + amount) mod capacity rb)) as [E|E].
  - do 2 eexists. split; [reflexivity |]. simpl.
    repeat split; try assumption; try reflexivity; contradiction.
  - do 2 eexists. split; [reflexivity |]. simpl.
    repeat split; try assumption; try reflexivity; contradiction.
Qed.

Lemma accepted_read_copies_from_start_witness :
  exists target' rb',
    RingBuffer_read (rb8 2 5) [x01; x02; x03] 2 = Some (2, target', rb')
    /\ target' = [x41; x00; x03]
    /\ length target' = 3%nat
    /\ 2 + 2 <= 8
    /\ buffer rb' = storage8 /\ capacity rb' = 8
    /\ (5 = (2 + 2) mod 8 -> start rb' = 0 /\ end_ rb' = 0)
    /\ (5 <> (2 + 2) mod 8 -> start rb' = (2 + 2) mod 8 /\ end_ rb' = 5).
Proof.
  apply (accepted_read_copies_from_start (rb8 2 5) [x01; x02; x03] 2 2).
  - unfold cursor_bounds, SIZE_MAX; simpl; lia.
  - reflexivity.
  - reflexivity.
  - lia.
  - simpl; lia.
Defined.

(** X9. Write keeps the number of stored bytes; read keeps the stored bytes
    themselves, whether it is accepted or rejected. *)
Theorem storage_kept_by_write_and_read (rb : RingBuffer) :
  cursor_bounds rb ->
  (forall data n r rb',
     0 <= n -> RingBuffer_write rb data n = Some (r, rb') ->
     length (buffer rb') = length (buffer rb))
  /\ (forall target amount r target' rb',
        RingBuffer_read rb target amount = Some (r, target', rb') ->
        buffer rb' = buffer rb).
Proof.
  intros Hb. split.
  - intros data n r rb' Hn H. unfold RingBuffer_write in H. inv_bind H.
    pose proof (normalize_if_empty_bounds rb Hb a) as (Hc & Hs & He).
    pose proof (normalize_if_empty_buffer rb a) as Hbuf.
    destruct (RingBuffer_available_space (normalize_if_empty rb a) <? n).
    + injection H as _ <-. rewrite Hbuf. reflexivity.
    + inv_bind H. inv_bind H. injection H as _ <-.
      unfold Ringbuffer_commit_write in E1. inv_bind E1.
      injection E1 as <-. simpl.
      apply memcpy_length in E0; try lia;
        [| unfold RingBuffer_ends_at; lia].
      rewrite E0, Hbuf. reflexivity.
  - intros target amount r target' rb' H. unfold RingBuffer_read in H.
    inv_bind H. destruct (a <? amount).
    + injection H as _ _ <-. reflexivity.
    + inv_bind H. inv_bind H. injection H as _ _ <-.
      unfold RingBuffer_commit_read in E1. inv_bind E1. injection E1 as <-.
      simpl. destruct (end_ rb =? a2); reflexivity.
Qed.

Lemma storage_kept_by_write_and_read_witness :
  cursor_bounds (rb8 2 3)
  /\ RingBuffer_write (rb8 2 3) [x58; x59] 2
     = Some (2, mkRingBuffer [x00; x00; x41; x58; x59; x00; x00; x00] 8 2 5)
  /\ length [x00; x00; x41; x58; x59; x00; x00; x00] = length storage8.
Proof.
  assert (Hb : cursor_bounds (rb8 2 3))
    by (unfold cursor_bounds, SIZE_MAX; simpl; lia).
  split; [exact Hb |]. split; [reflexivity |].
  destruct (storage_kept_by_write_and_read (rb8 2 3) Hb) as (Hw & _).
  apply (Hw [x58; x59] 2 2
            (mkRingBuffer [x00; x00; x41; x58; x59; x00; x00; x00] 8 2 5));
    [lia | reflexivity].
Defined.

(** * Resets leave the buffer unusable *)

(** X10. Writing into a buffer whose data count is zero resets both cursors, so
    [start] is zero after the call whether the write is accepted or not, and
    no further write, read or clear is defined. *)
Theorem write_after_reset_blocks_buffer (rb : RingBuffer) (data : list byte)
    (n r : Z) (rb' : RingBuffer) :
  RingBuffer_available_data rb = Some 0 ->
  RingBuffer_write rb data n = Some (r, rb') ->
  start rb' = 0
  /\ forall data' target' m,
       RingBuffer_write rb' data' m = None
       /\ RingBuffer_read rb' target' m = None
       /\ RingBuffer_clear rb' = None.
Proof.
  intros Hd H.
  assert (H0 : start rb' = 0).
  { unfold RingBuffer_write in H. rewrite Hd in H. cbn [bind] in H.
    change (normalize_if_empty rb 0) with (reset_cursors rb) in H.
    destruct (RingBuffer_available_space (reset_cursors rb) <? n).
    - injection H as _ <-. reflexivity.
    - inv_bind H. inv_bind H. injection H as _ <-.
      unfold Ringbuffer_commit_write in E0. inv_bind E0.
      injection E0 as <-. reflexivity. }
  split; [exact H0 |]. intros data' target' m.
  pose proof (available_data_zero_start rb' H0) as Hnone.
  unfold RingBuffer_write, RingBuffer_read, RingBuffer_clear.
  rewrite Hnone. repeat split.
Qed.

Lemma write_after_reset_blocks_buffer_witness :
  RingBuffer_available_data (rb8 3 2) = Some 0
  /\ RingBuffer_write (rb8 3 2) [x58; x59] 2
     = Some (2, mkRingBuffer [x58; x59; x41; x00; x00; x00; x00; x00] 8 0 2)
  /\ RingBuffer_read (mkRingBuffer [x58; x59; x41; x00; x00; x00; x00; x00] 8 0 2)
       [x00; x00] 2 = None.
Proof.
  split; [reflexivity |]. split; [reflexivity |].
  destruct (write_after_reset_blocks_buffer (rb8 3 2) [x58; x59] 2 2
              (mkRingBuffer [x58; x59; x41; x00; x00; x00; x00; x00] 8 0 2)
              eq_refl eq_refl) as (_ & Hstuck).
  destruct (Hstuck [] [x00; x00] 2) as (_ & Hr & _). exact Hr.
Defined.

(** X11. After an accepted read the cursors are equal only when both are zero:
    a read that takes [start] up to [end] resets them, and no further write,
    read or clear is defined on the drained buffer. *)
Theorem draining_read_blocks_buffer (rb : RingBuffer) (target : list byte)
    (amount d r : Z) (target' : list byte) (rb' : RingBuffer) :
  RingBuffer_available_data rb = Some d -> amount <= d ->
  RingBuffer_read rb target amount = Some (r, target', rb') ->
  end_ rb' = start rb' ->
  start rb' = 0 /\ end_ rb' = 0
  /\ forall data' target'' m,
       RingBuffer_write rb' data' m = None
       /\ RingBuffer_read rb' target'' m = None
       /\ RingBuffer_clear rb' = None.
Proof.
  intros Hd Ha H Hmeet.
  assert (H0 : start rb' = 0 /\ end_ rb' = 0).
  { unfold RingBuffer_read in H. rewrite Hd in H. simpl in H.
    destruct (Z.ltb_spec d amount) as [Hlt|_]; [lia |].
    inv_bind H. inv_bind H. injection H as _ _ <-.
    destruct (Z.eqb_spec (end_ a0) (start a0)) as [Hm|Hm].
    - split; reflexivity.
    - contradiction. }
  destruct H0 as (H0 & H1). split; [exact H0 |]. split; [exact H1 |].
  intros data' target'' m.
  pose proof (available_data_zero_start rb' H0) as Hnone.
  unfold RingBuffer_write, RingBuffer_read, RingBuffer_clear.
  rewrite Hnone. repeat split.
Qed.

Lemma draining_read_blocks_buffer_witness :
  RingBuffer_read (rb8 2 4) [x00; x00] 2 = Some (2, [x41; x00], rb8 0 0)
  /\ start (rb8 0 0) = 0 /\ end_ (rb8 0 0) = 0
  /\ RingBuffer_write (rb8 0 0) [x58] 1 = None.
Proof.
  split; [reflexivity |].
  destruct (draining_read_blocks_buffer (rb8 2 4) [x00; x00] 2 2 2
              [x41; x00] (rb8 0 0) eq_refl (Z.le_refl 2) eq_refl eq_refl)
    as (H0 & H1 & Hstuck).
  split; [exact H0 |]. split; [exact H1 |].
  destruct (Hstuck [x58] [] 1) as (Hw & _). exact Hw.
Defined.

(** * Clear, zero-length calls and the commit functions *)

Lemma RingBuffer_eta (rb : RingBuffer) :
  mkRingBuffer (buffer rb) (capacity rb) (start rb) (end_ rb) = rb.
Proof. destruct rb; reflexivity. Qed.

(** X12. Clear is defined whenever [start] is not zero; it changes [start] only,
    and it leaves the buffer as it is exactly when the buffer reports
    empty. *)
Theorem clear_is_identity_iff_empty (rb : RingBuffer) :
  cursor_bounds rb -> start rb <> 0 ->
  exists rb',
    RingBuffer_clear rb = Some rb'
    /\ buffer rb' = buffer rb /\ capacity rb' = capacity rb
    /\ end_ rb' = end_ rb
    /\ (RingBuffer_empty rb = Some true <-> rb' = rb).
Proof.
  intros Hb Hs0. destruct (available_data_defined rb Hb) as (Hd & _).
  specialize (Hd Hs0). destruct Hb as (Hc & Hs & He).
  destruct (quotient_window (start rb) (end_ rb)) as (Hq & Hz & _); try lia.
  pose proof (quotient_stays_in_storage (start rb) (end_ rb) (capacity rb)) as Hin.
  set (d := end_ rb / start rb) in *.
  assert (Hw : size_add (start rb) d = start rb + d).
  { unfold size_add. apply wrap_small. lia. }
  exists (set_start rb ((start rb + d) mod capacity rb)). split.
  { unfold RingBuffer_clear. rewrite Hd. simpl.
    unfold RingBuffer_commit_read. rewrite size_rem_nonzero by lia. simpl.
    rewrite Hw. reflexivity. }
  simpl. repeat split.
  - intros Hemp. unfold RingBuffer_empty in Hemp. rewrite Hd in Hemp.
    simpl in Hemp. injection Hemp as Hemp. apply Z.eqb_eq in Hemp.
    rewrite Hemp, Z.add_0_r, Z.mod_small by lia.
    unfold set_start. apply RingBuffer_eta.
  - intros Hsame. unfold RingBuffer_empty. rewrite Hd. simpl. f_equal.
    apply Z.eqb_eq.
    assert (Hst : (start rb + d) mod capacity rb = start rb).
    { change ((start rb + d) mod capacity rb)
        with (start (set_start rb ((start rb + d) mod capacity rb))).
      rewrite Hsame. reflexivity. }
    destruct (Z.eq_dec (start rb + d) (capacity rb)) as [Ecap|Ecap].
    + rewrite Ecap, Z.mod_same in Hst by lia. lia.
    + rewrite Z.mod_small in Hst by lia. lia.
Qed.

Lemma clear_is_identity_iff_empty_witness :
  exists rb',
    RingBuffer_clear (rb8 3 2) = Some rb'
    /\ buffer rb' = buffer (rb8 3 2) /\ capacity rb' = capacity (rb8 3 2)
    /\ end_ rb' = end_ (rb8 3 2)
    /\ (RingBuffer_empty (rb8 3 2) = Some true <-> rb' = rb8 3 2).
Proof.
  apply (clear_is_identity_iff_empty (rb8 3 2)).
  - unfold cursor_bounds, SIZE_MAX; simpl; lia.
  - simpl; lia.
Defined.

(** X13. Calls of length zero.  A write of no byte is accepted and does nothing
    beyond the initial reset.  A read of no byte is accepted and leaves the
    target alone, but it still resets both cursors when they coincide. *)
Theorem zero_length_calls (rb : RingBuffer) (data target : list byte) (d : Z) :
  cursor_bounds rb -> storage_sized rb ->
  RingBuffer_available_data rb = Some d ->
  RingBuffer_write rb data 0 = Some (0, normalize_if_empty rb d)
  /\ RingBuffer_read rb target 0
     = Some (0, target,
             if end_ rb =? start rb then reset_cursors rb else rb).
Proof.
  intros Hb Hsz Hd. split.
  - pose proof (normalize_if_empty_bounds rb Hb d) as (Hc & Hs & He).
    pose proof (normalize_if_empty_buffer rb d) as Hbuf.
    pose proof (normalize_if_empty_capacity rb d) as Hcap.
    unfold storage_sized in Hsz.
    unfold RingBuffer_write. rewrite Hd. cbn [bind].
    set (rb1 := normalize_if_empty rb d) in *.
    destruct (Z.ltb_spec (RingBuffer_available_space rb1) 0) as [Hlt|_].
    { rewrite available_space_in_bounds in Hlt by lia. lia. }
    unfold RingBuffer_ends_at.
    rewrite memcpy_in_range by (simpl; rewrite ?Hbuf; lia).
    cbn [bind]. rewrite Z.add_0_r. simpl firstn at 2. simpl app.
    rewrite firstn_skipn.
    unfold Ringbuffer_commit_write. cbn [set_buffer end_ capacity].
    rewrite size_rem_nonzero by lia. cbn [bind].
    unfold size_add. rewrite Z.add_0_r, wrap_small, Z.mod_small by lia.
    unfold set_end. simpl. rewrite RingBuffer_eta. reflexivity.
  - destruct (available_data_value rb d Hb Hd) as (Hs0 & Hdv).
    destruct Hb as (Hc & Hs & He). unfold storage_sized in Hsz.
    destruct (quotient_window (start rb) (end_ rb)) as (Hq & _); try lia.
    unfold RingBuffer_read. rewrite Hd. cbn [bind].
    destruct (Z.ltb_spec d 0) as [Hlt|_]; [lia |].
    unfold RingBuffer_starts_at.
    rewrite memcpy_in_range by (simpl; lia). cbn [bind]. simpl.
    unfold RingBuffer_commit_read. rewrite size_rem_nonzero by lia.
    cbn [bind]. unfold size_add.
    rewrite Z.add_0_r, wrap_small, Z.mod_small by lia.
    unfold set_start. rewrite RingBuffer_eta. reflexivity.
Qed.

Lemma zero_length_calls_witness :
  RingBuffer_write (rb8 4 4) [] 0 = Some (0, normalize_if_empty (rb8 4 4) 1)
  /\ RingBuffer_read (rb8 4 4) [x07] 0
     = Some (0, [x07],
             if end_ (rb8 4 4) =? start (rb8 4 4)
             then reset_cursors (rb8 4 4) else rb8 4 4).
Proof.
  apply (zero_length_calls (rb8 4 4) [] [x07] 1).
  - unfold cursor_bounds, SIZE_MAX; simpl; lia.
  - reflexivity.
  - reflexivity.
Defined.

(** X14. The commit functions add up and commute: as long as the sums stay within
    [size_t], committing [a] and then [b] is committing [a + b], and a read
    commit and a write commit can be exchanged. *)
Theorem commits_compose (rb : RingBuffer) (a b : Z) :
  cursor_bounds rb -> 0 <= a -> 0 <= b ->
  capacity rb + a + b <= SIZE_MAX ->
  (rb1 <- RingBuffer_commit_read rb a ;; RingBuffer_commit_read rb1 b)
  = RingBuffer_commit_read rb (a + b)
  /\ (rb1 <- Ringbuffer_commit_write rb a ;; Ringbuffer_commit_write rb1 b)
     = Ringbuffer_commit_write rb (a + b)
  /\ (rb1 <- RingBuffer_commit_read rb a ;; Ringbuffer_commit_write rb1 b)
     = (rb1 <- Ringbuffer_commit_write rb b ;; RingBuffer_commit_read rb1 a).
Proof.
  intros (Hc & Hs & He) Ha Hb Hsum.
  assert (Hmod : forall x, 0 <= x mod capacity rb < capacity rb)
    by (intros x; apply Z.mod_pos_bound; lia).
  unfold RingBuffer_commit_read, Ringbuffer_commit_write.
  rewrite !size_rem_nonzero by lia. cbn [bind set_start set_end start end_
    capacity buffer].
  rewrite !size_rem_nonzero by lia. cbn [bind set_start set_end start end_
    capacity buffer].
  unfold size_add.
  rewrite (wrap_small (start rb + a)), (wrap_small (end_ rb + a)) by lia.
  rewrite (wrap_small (start rb + (a + b))), (wrap_small (end_ rb + (a + b)))
    by lia.
  pose proof (Hmod (start rb + a)) as H1. pose proof (Hmod (end_ rb + a)) as H2.
  rewrite (wrap_small ((start rb + a) mod capacity rb + b)) by lia.
  rewrite (wrap_small ((end_ rb + a) mod capacity rb + b)) by lia.
  rewrite !Z.add_mod_idemp_l by lia. rewrite !Z.add_assoc.
  rewrite (wrap_small (end_ rb + b)) by lia.
  repeat split.
Qed.

Lemma commits_compose_witness :
  (rb1 <- RingBuffer_commit_read (rb8 2 5) 3 ;; RingBuffer_commit_read rb1 4)
  = RingBuffer_commit_read (rb8 2 5) (3 + 4)
  /\ (rb1 <- Ringbuffer_commit_write (rb8 2 5) 3 ;; Ringbuffer_commit_write rb1 4)
     = Ringbuffer_commit_write (rb8 2 5) (3 + 4)
  /\ (rb1 <- RingBuffer_commit_read (rb8 2 5) 3 ;; Ringbuffer_commit_write rb1 4)
     = (rb1 <- Ringbuffer_commit_write (rb8 2 5) 4 ;; RingBuffer_commit_read rb1 3).
Proof.
  apply (commits_compose (rb8 2 5) 3 4).
  - unfold cursor_bounds, SIZE_MAX; simpl; lia.
  - lia.
  - lia.
  - unfold SIZE_MAX; simpl; lia.
Defined.

(** * Consecutive writes *)

(** Overwriting at offset [e] with [d1] and then right behind it with the
    first [n2] bytes of [d2] is overwriting at [e] with the first
    [length d1 + n2] bytes of [d1 ++ d2]. *)
Lemma overwrite_twice (buf d1 d2 : list byte) (e n2 : nat) :
  (e + length d1 + n2 <= length buf)%nat ->
  firstn (e + length d1) (firstn e buf ++ d1 ++ skipn (e + length d1) buf)
  ++ firstn n2 d2
  ++ skipn (e + length d1 + n2)
       (firstn e buf ++ d1 ++ skipn (e + length d1) buf)
  = firstn e buf ++ firstn (length d1 + n2) (d1 ++ d2)
    ++ skipn (e + length d1 + n2) buf.
Proof.
  intros Hlen.
  assert (Hpre : length (firstn e buf ++ d1) = (e + length d1)%nat).
  { rewrite length_app, length_firstn. lia. }
  rewrite (app_assoc (firstn e buf) d1).
  rewrite firstn_app, Hpre, Nat.sub_diag, firstn_all2 by lia.
  simpl firstn. rewrite app_nil_r.
  rewrite skipn_app, Hpre, skipn_all2 by lia. simpl app.
  replace (e + length d1 + n2 - (e + length d1))%nat with n2 by lia.
  rewrite skipn_skipn, firstn_app_2.
  replace (n2 + (e + length d1))%nat with (e + length d1 + n2)%nat by lia.
  rewrite <- !app_assoc. reflexivity.
Qed.

(** X15. Two accepted writes in a row store what one write of the concatenated
    bytes stores.  On a buffer whose data count is not zero, when
    [n1 + n2] bytes fit the free space, writing [data1] (all [n1] bytes of
    it) and then the first [n2] bytes of [data2] are both accepted and leave
    the buffer exactly as a single write of the first [n1 + n2] bytes of
    [data1 ++ data2] does. *)
Theorem consecutive_writes_concatenate (rb : RingBuffer)
    (data1 data2 : list byte) (n1 n2 d : Z) :
  cursor_bounds rb -> storage_sized rb ->
  RingBuffer_available_data rb = Some d -> d <> 0 ->
  Z.of_nat (length data1) = n1 ->
  0 <= n2 <= Z.of_nat (length data2) ->
  n1 + n2 <= RingBuffer_available_space rb ->
  exists rb1 rb2,
    RingBuffer_write rb data1 n1 = Some (n1, rb1)
    /\ RingBuffer_write rb1 data2 n2 = Some (n2, rb2)
    /\ RingBuffer_write rb (data1 ++ data2) (n1 + n2) = Some (n1 + n2, rb2).
Proof.
  intros Hb Hsz Hd Hnz Hn1 Hn2 Hfit.
  assert (Hnorm : normalize_if_empty rb d = rb).
  { unfold normalize_if_empty.
    destruct (Z.eqb_spec d 0); [contradiction | reflexivity]. }
  destruct (available_data_value rb d Hb Hd) as (Hs0 & Hdv).
  pose proof Hb as (Hc & Hs & He).
  destruct (quotient_window (start rb) (end_ rb)) as (Hq & Hz & _); try lia.
  assert (Hes : start rb <= end_ rb) by lia.
  pose proof Hfit as Hfit'.
  rewrite available_space_in_bounds in Hfit' by lia.
  (* the first write *)
  destruct (RingBuffer_write_accepts rb data1 n1 d Hb Hsz Hd) as
    (rb1 & Hw1 & Hbuf1 & He1 & Hlt1 & Hs1 & Hc1 & Hsz1).
  { rewrite Hnorm, available_space_in_bounds by lia. lia. }
  { lia. }
  rewrite Hnorm in Hbuf1, He1, Hs1.
  assert (Hb1 : cursor_bounds rb1) by (unfold cursor_bounds; lia).
  destruct (available_data_defined rb1 Hb1) as (Hd1 & _).
  assert (Hs10 : start rb1 <> 0) by lia. specialize (Hd1 Hs10).
  destruct (quotient_window (start rb1) (end_ rb1)) as (_ & Hz1 & _); try lia.
  assert (Hnz1 : end_ rb1 / start rb1 <> 0) by (rewrite Hz1; lia).
  assert (Hnorm1 : normalize_if_empty rb1 (end_ rb1 / start rb1) = rb1).
  { unfold normalize_if_empty.
    destruct (Z.eqb_spec (end_ rb1 / start rb1) 0); [contradiction | reflexivity]. }
  (* the second write *)
  destruct (RingBuffer_write_accepts rb1 data2 n2 _ Hb1 Hsz1 Hd1) as
    (rb2 & Hw2 & Hbuf2 & He2 & Hlt2 & Hs2 & Hc2 & Hsz2).
  { rewrite Hnorm1, available_space_in_bounds by lia. lia. }
  { lia. }
  rewrite Hnorm1 in Hbuf2, He2, Hs2.
  (* the single write *)
  destruct (RingBuffer_write_accepts rb (data1 ++ data2) (n1 + n2) d Hb Hsz Hd)
    as (rb3 & Hw3 & Hbuf3 & He3 & Hlt3 & Hs3 & Hc3 & Hsz3).
  { rewrite Hnorm. lia. }
  { rewrite length_app. lia. }
  rewrite Hnorm in Hbuf3, He3, Hs3.
  exists rb1, rb2. split; [exact Hw1 |]. split; [exact Hw2 |].
  rewrite Hw3. f_equal. f_equal.
  rewrite <- (RingBuffer_eta rb2), <- (RingBuffer_eta rb3).
  f_equal; try lia.
  rewrite Hbuf3, Hbuf2, Hbuf1, He1.
  unfold storage_sized in Hsz.
  rewrite (firstn_all2 (n:=Z.to_nat n1) data1) by lia.
  replace (Z.to_nat (end_ rb + n1))
    with (Z.to_nat (end_ rb) + length data1)%nat by lia.
  replace (Z.to_nat (end_ rb + n1 + n2))
    with (Z.to_nat (end_ rb) + length data1 + Z.to_nat n2)%nat by lia.
  replace (Z.to_nat (end_ rb + (n1 + n2)))
    with (Z.to_nat (end_ rb) + length data1 + Z.to_nat n2)%nat by lia.
  replace (Z.to_nat (n1 + n2)) with (length data1 + Z.to_nat n2)%nat by lia.
  symmetry. apply overwrite_twice. lia.
Qed.

Lemma consecutive_writes_concatenate_witness :
  exists rb1 rb2,
    RingBuffer_write (rb8 2 3) [x58; x59] 2 = Some (2, rb1)
    /\ RingBuffer_write rb1 [x5a; x57] 1 = Some (1, rb2)
    /\ RingBuffer_write (rb8 2 3) ([x58; x59] ++ [x5a; x57]) (2 + 1)
       = Some (2 + 1, rb2).
Proof.
  apply (consecutive_writes_concatenate (rb8 2 3) [x58; x59] [x5a; x57] 2 1 1).
  - unfold cursor_bounds, SIZE_MAX; simpl; lia.
  - reflexivity.
  - reflexivity.
  - lia.
  - reflexivity.
  - simpl; lia.
  - vm_compute. discriminate.
Defined.
